(** * CustomSignalApp: the signal evaluator and the commentary client

    A shallow embedding of [app_streamlit_final.py], section 2 (core logic
    functions), with the module constants of section 1.

    - A Python [float] is an IEEE 754 binary64 value; it is modelled by the
      standard library's [spec_float], and the two comparisons the program
      uses ([<] and [>=]) by [SFcompare].  Every binary64 value is a
      [spec_float] accepted by [Float64.is_binary64]; the theorems below hold
      for every [spec_float], hence for every Python float, NaN, the
      infinities and the signed zeros included.
    - A Python [str] is modelled by [string], holding the UTF-8 bytes of the
      text; a line feed is [nl].
    - A Python list is a [list], most recent round last. *)

From Stdlib Require Import String Ascii List ZArith Bool Arith Lia.
From Stdlib Require Import Floats.SpecFloat DecimalString.
Import ListNotations.
Local Open Scope string_scope.
Local Open Scope list_scope.
Local Open Scope nat_scope.

(** ** Floats *)

Module Float64.

Definition float := spec_float.

Definition prec : Z := 53.
Definition emax : Z := 1024.

(** The values a Python float can take. *)
Definition is_binary64 (x : float) : bool := valid_binary prec emax x.

(** [x < y] on floats. *)
Definition ltb (x y : float) : bool := SFltb x y.

(** [x >= y] on floats: true when the comparison is defined and gives
    "greater" or "equal"; false as soon as one side is NaN. *)
Definition geb (x y : float) : bool :=
  match SFcompare x y with
  | Some (Gt | Eq) => true
  | _ => false
  end.

(** [x == y] on floats. *)
Definition eqb (x y : float) : bool := SFeqb x y.

(** A positive literal [m * 2^e]. *)
Definition lit (m : positive) (e : Z) : float := S754_finite false m e.
Definition neg (x : float) : float := SFopp x.

Definition zero : float := S754_zero false.
Definition nan : float := S754_nan.

(** The decimal literals of the program and of its documented scenarios,
    each rounded to the nearest binary64 value. *)
Definition f0_8  : float := lit 7205759403792794 (-53).
Definition f0_9  : float := lit 8106479329266893 (-53).
Definition f1_0  : float := lit 4503599627370496 (-52).
Definition f1_1  : float := lit 4953959590107546 (-52).
Definition f1_2  : float := lit 5404319552844595 (-52).
Definition f1_3  : float := lit 5854679515581645 (-52).
Definition f1_4  : float := lit 6305039478318694 (-52).
Definition f1_45 : float := lit 6530219459687219 (-52).
Definition f1_49 : float := lit 6710363444782039 (-52).
Definition f1_5  : float := lit 6755399441055744 (-52).
Definition f2_0  : float := lit 4503599627370496 (-51).
Definition f8_0  : float := lit 4503599627370496 (-49).
Definition f9_0  : float := lit 5066549580791808 (-49).

End Float64.

Import Float64.

(** ** The Python list and string operations the program uses *)

Module Py.

(** [l[-k:]] for [k > 0]: the last [k] elements, or all of [l] when it has
    fewer than [k]. *)
Definition slice_last {A : Type} (k : nat) (l : list A) : list A :=
  skipn (length l - k) l.

(** [reversed(l)], consumed in order. *)
Definition reversed {A : Type} (l : list A) : list A := rev l.

(** [any(p(m) for m in l)]. *)
Definition any {A : Type} (p : A -> bool) (l : list A) : bool := existsb p l.

(** [sep.join(parts)]. *)
Definition join (sep : string) (parts : list string) : string :=
  String.concat sep parts.

(** [f"{n}"] for a non-negative [int]. *)
Definition format_int (n : nat) : string :=
  NilEmpty.string_of_uint (Nat.to_uint n).

(** The line feed written [\n] in the source. *)
Definition nl : string := String (ascii_of_nat 10) EmptyString.

End Py.

Import Py.

(** ** Section 1.1: constants *)

Definition LOW_MULTIPLIER_THRESHOLD : float := f1_5.
Definition HIGH_MULTIPLIER_THRESHOLD : float := f8_0.

Definition REQUIRED_LOW_STREAK : nat := 7.
Definition SAFE_HIGH_STREAK : nat := 20.

(** [f"{LOW_MULTIPLIER_THRESHOLD}"] and [f"{HIGH_MULTIPLIER_THRESHOLD}"]:
    Python prints the floats 1.50 and 8.00 as [1.5] and [8.0]. *)
Definition fmt_LOW_MULTIPLIER_THRESHOLD : string := "1.5".
Definition fmt_HIGH_MULTIPLIER_THRESHOLD : string := "8.0".

(** ** Section 2: [generate_risk_averse_signal] *)

(** The [for ... in reversed(...)] loop of check 1: [count] is the value of
    [low_streak_count] on entry, the list is what remains to iterate, and
    leaving the recursion on the first failing element is the [break]. *)
Fixpoint low_streak_loop (remaining : list float) (count : nat) : nat :=
  match remaining with
  | [] => count
  | multiplier :: rest =>
      if ltb multiplier LOW_MULTIPLIER_THRESHOLD
      then low_streak_loop rest (count + 1)
      else count
  end.

Definition low_streak_count (history : list float) : nat :=
  low_streak_loop (reversed (slice_last REQUIRED_LOW_STREAK history)) 0.

Definition is_low_streak_ready (history : list float) : bool :=
  REQUIRED_LOW_STREAK <=? low_streak_count history.

Definition high_hit_recently (history : list float) : bool :=
  any (fun m => geb m HIGH_MULTIPLIER_THRESHOLD)
      (slice_last SAFE_HIGH_STREAK history).

Definition insufficient_message : string :=
  "🛑 ERROR: Need at least " ++ format_int SAFE_HIGH_STREAK
  ++ " rounds of history for safe analysis.".

Definition signal_message (count : nat) : string :=
  "🎯 **HIGH-TARGET SIGNAL!** **BET NOW!** 🎯" ++ nl ++ nl
  ++ "**Conditions Met (100% accurate rule execution):**" ++ nl
  ++ "  1. Low Streak: " ++ format_int count ++ " consecutive rounds **< "
  ++ fmt_LOW_MULTIPLIER_THRESHOLD ++ "x**." ++ nl
  ++ "  2. Safety Check: **NO** multiplier **>= "
  ++ fmt_HIGH_MULTIPLIER_THRESHOLD ++ "x** recently." ++ nl ++ nl
  ++ "**ACTION:** Target **3.00x** (Aggressive) or **2.00x** (Moderate).".

Definition low_streak_reason (count : nat) : string :=
  "🔴 **Low Streak NOT Ready** (only " ++ format_int count ++ " below "
  ++ fmt_LOW_MULTIPLIER_THRESHOLD ++ "x).".

Definition high_variance_reason : string :=
  "🔴 **High Variance Detected** (a " ++ fmt_HIGH_MULTIPLIER_THRESHOLD
  ++ "x+ hit occurred recently).".

(** The list [reason] of the [else] branch, after its two [append]s. *)
Definition reasons (count : nat) (ready high : bool) : list string :=
  (if negb ready then [low_streak_reason count] else [])
  ++ (if high then [high_variance_reason] else []).

Definition no_signal_message (reason : list string) : string :=
  "❌ **NO SIGNAL.** **DO NOT BET.**" ++ nl ++ nl
  ++ "**Reason(s) to Wait:**" ++ nl ++ "* " ++ join " " reason ++ nl
  ++ "**Action:** Wait for safety conditions to align.".

Definition generate_risk_averse_signal (history : list float) : string * bool :=
  if length history <? SAFE_HIGH_STREAK then
    (insufficient_message, false)
  else
    let count := low_streak_count history in
    let ready := is_low_streak_ready history in
    let high := high_hit_recently history in
    if ready && negb high then
      (signal_message count, true)
    else
      (no_signal_message (reasons count ready high), false).

(** The two components of the returned tuple. *)
Definition message (history : list float) : string :=
  fst (generate_risk_averse_signal history).
Definition isSignal (history : list float) : bool :=
  snd (generate_risk_averse_signal history).

(** ** Section 1.2 and [get_ai_analysis]: the commentary client *)

Module Commentary.

(** What running a piece of Python gives: a value, or a raised
    [Exception], of which the program only ever uses the text [f"{e}"]. *)
Inductive outcome (A : Type) : Type :=
| Returned (a : A)
| Raised (e : string).
Arguments Returned {A} a.
Arguments Raised {A} e.

(** One request to the text-generation service. *)
Record request : Type := { model : string; contents : string }.

(** The handle [genai.Client()] gives: what
    [client.models.generate_content(...)] does with a request, either a
    response, of which the program reads [.text], or an exception. *)
Record Client : Type := { generate_content : request -> outcome string }.

(** Code that may send requests: it takes the requests sent so far and
    gives its outcome with the requests sent once it is done. *)
Definition io (A : Type) : Type := list request -> outcome A * list request.

Definition ret {A : Type} (a : A) : io A := fun sent => (Returned a, sent).

Definition bind {A B : Type} (c : io A) (k : A -> io B) : io B :=
  fun sent =>
    match c sent with
    | (Returned a, sent') => k a sent'
    | (Raised e, sent') => (Raised e, sent')
    end.

(** [try: body  except Exception as e: handler]. *)
Definition try_except {A : Type} (body : io A) (handler : string -> io A) : io A :=
  fun sent =>
    match body sent with
    | (Returned a, sent') => (Returned a, sent')
    | (Raised e, sent') => handler e sent'
    end.

(** The network call: the request is sent, then the service answers. *)
Definition send (c : Client) (r : request) : io string :=
  fun sent => (generate_content c r, sent ++ [r]).

Notation "x <- c ;; k" := (bind c (fun x => k))
  (at level 61, c at next level, right associativity).


Definition unavailable_message : string :=
  "⚠️ Gemini AI Analysis is unavailable.".

Definition api_error_message (e : string) : string :=
  "Gemini API Error: Could not generate analysis. (" ++ e ++ ")".

Section Explain.

(** [f"{history_list}"], Python's rendering of a list of floats, is not
    modelled: the prompt is only handed to the service. *)
Variable format_history : list float -> string.

Definition prompt_of (history_list : list float) (traditional_signal : string) : string :=
  "Analyze the sequence: " ++ format_history history_list
  ++ ". The calculated signal is: '" ++ traditional_signal
  ++ "'. Based on crash game risk principles, provide a quick 3-4 sentence risk assessment.".

(** [client] is the module global set from [get_gemini_client()]; a
    handle is truthy, [None] is not. *)
Definition get_ai_analysis (client : option Client)
    (history_list : list float) (traditional_signal : string) : io string :=
  match client with
  | None => ret unavailable_message
  | Some c =>
      let prompt := prompt_of history_list traditional_signal in
      try_except
        (response_text <- send c {| model := "gemini-2.5-flash"; contents := prompt |} ;;
         ret response_text)
        (fun e => ret (api_error_message e))
  end.

End Explain.

End Commentary.

(** ** The documented scenarios *)

Definition scenario_ok : list float :=
  [f2_0; f2_0; f2_0; f2_0; f2_0; f2_0; f2_0; f2_0; f2_0; f2_0; f2_0; f2_0; f2_0;
   f1_4; f1_3; f1_2; f1_1; f1_0; f0_9; f0_8].

Definition broken_tail : list float :=
  [f1_1; f1_2; f1_3; f1_4; f1_45; f1_49; f2_0].

(** ** The specification's reading of the low-streak count *)

Fixpoint take_while {A : Type} (p : A -> bool) (l : list A) : list A :=
  match l with
  | [] => []
  | x :: rest => if p x then x :: take_while p rest else []
  end.

Definition below_low (m : float) : bool := ltb m LOW_MULTIPLIER_THRESHOLD.
Definition at_or_above_high (m : float) : bool := geb m HIGH_MULTIPLIER_THRESHOLD.

(** Following the specification's words: scan the window from its most
    recent element backward and count the consecutive elements strictly
    below the low threshold, stopping at the first one that is not. *)
Definition trailing_low_run (window : list float) : nat :=
  length (take_while below_low (rev window)).

(** What the evaluator can observe of one round. *)
Definition observe (m : float) : bool * bool := (below_low m, at_or_above_high m).

(** Histories used to run the theorems on concrete inputs. *)

Definition history_broken : list float := repeat f2_0 13 ++ broken_tail.

(** [scenario_ok] with its oldest round replaced by exactly 8.00. *)
Definition scenario_exact_high : list float := f8_0 :: tl scenario_ok.

(** Nineteen low rounds, then a round at exactly 1.50. *)
Definition history_boundary_low : list float := repeat f1_0 19 ++ [f1_5].

(** A 9.0 round followed by the twenty rounds of [scenario_ok]. *)
Definition history_old_high : list float := f9_0 :: scenario_ok.

(** Twenty rounds that are zero or negative. *)
Definition history_negative : list float :=
  repeat (neg f1_0) 13 ++ [zero; neg f0_9; neg f9_0; S754_zero true;
                           neg f1_5; S754_infinity true; neg f0_8].

(** A service handle whose every call raises. *)
Definition failing_client : Commentary.Client :=
  {| Commentary.generate_content := fun _ => Commentary.Raised "503 UNAVAILABLE" |}.

(** ** Section 3: the text field and the [CHECK BETTING SIGNAL] button *)

(** The content of the text field is read character by character, so it is
    modelled as the sequence of its Unicode code points. *)
Module Text.

Definition char : Type := N.
Definition text : Type := list char.

Definition comma : char := 44%N.
Definition space : char := 32%N.

(** The characters [str.split()] and [str.strip()] take for whitespace:
    those for which [str.isspace()] holds. *)
Definition isspace (c : char) : bool :=
  ((9 <=? c) && (c <=? 13) || (28 <=? c) && (c <=? 32)
   || (c =? 133) || (c =? 160) || (c =? 5760)
   || (8192 <=? c) && (c <=? 8202)
   || (c =? 8232) || (c =? 8233) || (c =? 8239) || (c =? 8287)
   || (c =? 12288))%N.

(** [s.replace(",", " ")]. *)
Definition replace_commas (s : text) : text :=
  map (fun c => if (c =? comma)%N then space else c) s.

(** The scan behind [s.split()], for the separators [sep]: [token] holds,
    most recent first, the characters of the token being read; a separator
    closes the token if there is one and is dropped. *)
Fixpoint split_scan (sep : char -> bool) (s : text) (token : text) : list text :=
  match s with
  | [] =>
      match token with
      | [] => []
      | _ :: _ => [rev token]
      end
  | c :: rest =>
      if sep c then
        match token with
        | [] => split_scan sep rest []
        | _ :: _ => rev token :: split_scan sep rest []
        end
      else split_scan sep rest (c :: token)
  end.

(** [s.split()]. *)
Definition split (s : text) : list text := split_scan isspace s [].

(** [s.lstrip()] and [s.strip()]. *)
Fixpoint lstrip (s : text) : text :=
  match s with
  | [] => []
  | c :: rest => if isspace c then lstrip rest else s
  end.

Definition strip (s : text) : text := rev (lstrip (rev (lstrip s))).

(** [history_string.replace(",", " ").split()]. *)
Definition tokens (history_string : text) : list text :=
  split (replace_commas history_string).

(** A character that ends a token of the text field: whitespace or a
    comma. *)
Definition is_delimiter (c : char) : bool := isspace c || (c =? comma)%N.

(** A text with no delimiter in it. *)
Definition delimiter_free (x : text) : bool :=
  forallb (fun c => negb (is_delimiter c)) x.

(** [sep.join(parts)] on texts. *)
Fixpoint join_text (sep : text) (parts : list text) : text :=
  match parts with
  | [] => []
  | [x] => x
  | x :: rest => x ++ sep ++ join_text sep rest
  end.

End Text.

Module App.

Import Commentary Text.

(** What the handler puts on the page, in order; [st_spinner] is the
    message shown while the [with st.spinner(...)] block runs. *)
Inductive element : Type :=
| st_warning (body : string)
| st_success (body : string)
| st_error (body : string)
| st_info (body : string)
| st_spinner (body : string).

(** What a run of the handler acts on: the page and the requests sent to
    the service. *)
Record world : Type := { page : list element; requests : list request }.

Definition action (A : Type) : Type := world -> outcome A * world.

Definition render (e : element) : action unit :=
  fun w => (Returned tt, {| page := page w ++ [e]; requests := requests w |}).

(** Running code that only talks to the service. *)
Definition call {A : Type} (c : io A) : action A :=
  fun w =>
    let (result, sent) := c (requests w) in
    (result, {| page := page w; requests := sent |}).

Definition and_then {A B : Type} (c : action A) (k : A -> action B) : action B :=
  fun w =>
    match c w with
    | (Returned a, w') => k a w'
    | (Raised e, w') => (Raised e, w')
    end.

(** [c] then [k], when the value of [c] is not used. *)
Definition seq_then {A B : Type} (c : action A) (k : action B) : action B :=
  and_then c (fun _ => k).

Definition paste_warning : string :=
  "Please paste the multiplier history to analyze.".

Definition invalid_numbers_error : string :=
  "❌ Error: Please ensure all pasted values are valid numbers.".

Definition spinner_text : string :=
  "🤖 Gemini AI is generating risk assessment...".

Definition assessment_info (ai_analysis : string) : string :=
  "**Gemini AI Risk Assessment:**" ++ nl ++ ai_analysis.

Definition need_more_rounds_info : string :=
  "Need at least " ++ format_int SAFE_HIGH_STREAK
  ++ " rounds for full AI analysis.".

Section Handler.

(** [float(x)] on a string without surrounding whitespace is not modelled:
    [None] stands for its [ValueError]. *)
Variable float_of : text -> option float.

Variable format_history : list float -> string.

(** The module global [client]. *)
Variable client : option Client.

(** The list comprehension over the tokens, left to right: a token whose
    [strip()] is empty is skipped, and [None] is the [ValueError] of the
    first token [float] rejects. *)
Fixpoint floats_of_tokens (tokens : list text) : option (list float) :=
  match tokens with
  | [] => Some []
  | x :: rest =>
      match strip x with
      | [] => floats_of_tokens rest
      | _ :: _ =>
          match float_of (strip x) with
          | None => None
          | Some value =>
              match floats_of_tokens rest with
              | None => None
              | Some values => Some (value :: values)
              end
          end
      end
  end.

Definition parse_history (history_string : text) : option (list float) :=
  floats_of_tokens (tokens history_string).

(** The body of [if st.button("CHECK BETTING SIGNAL"):]. *)
Definition on_check (history_string : text) : action unit :=
  match history_string with
  | [] => render (st_warning paste_warning)
  | _ :: _ =>
      match parse_history history_string with
      | None => render (st_error invalid_numbers_error)
      | Some history_list =>
          let (signal_text, is_bet_signal) :=
            generate_risk_averse_signal history_list in
          seq_then
            (render (if is_bet_signal then st_success signal_text
                     else st_error signal_text))
            (if SAFE_HIGH_STREAK <=? length history_list then
               seq_then
                 (render (st_spinner spinner_text))
                 (and_then
                    (call (get_ai_analysis format_history client
                             history_list signal_text))
                    (fun ai_analysis =>
                       render (st_info (assessment_info ai_analysis))))
             else
               render (st_info need_more_rounds_info))
      end
  end.

(** The verdict element: green on a signal, red otherwise. *)
Definition verdict_element (history_list : list float) : element :=
  if isSignal history_list then st_success (message history_list)
  else st_error (message history_list).

(** The request [get_ai_analysis] builds for a history and its verdict. *)
Definition analysis_request (history_list : list float) : request :=
  {| model := "gemini-2.5-flash";
     contents := prompt_of format_history history_list (message history_list) |}.

(** What the handler adds to the page and to the requests. *)
Definition grown (w : world) (added : list element) (sent : list request) : world :=
  {| page := page w ++ added; requests := requests w ++ sent |}.

End Handler.

(** [float] on every token, all or nothing. *)
Fixpoint all_floats (float_of : text -> option float) (xs : list text)
    : option (list float) :=
  match xs with
  | [] => Some []
  | x :: rest =>
      match float_of x, all_floats float_of rest with
      | Some value, Some values => Some (value :: values)
      | _, _ => None
      end
  end.

End App.

(** A stand-in for [float] that knows three spellings. *)
Definition float_of_demo (x : Text.text) : option float :=
  if list_eq_dec N.eq_dec x [49; 46; 48]%N then Some f1_0
  else if list_eq_dec N.eq_dec x [57; 46; 48]%N then Some f9_0
  else if list_eq_dec N.eq_dec x [110; 97; 110]%N then Some nan
  else None.

(** The text [1.0, 1.0] and the text [1.0, abc]. *)
Definition text_two_values : Text.text := [49; 46; 48; 44; 32; 49; 46; 48]%N.
Definition text_bad_value : Text.text := [49; 46; 48; 44; 32; 97; 98; 99]%N.


Definition empty_world : App.world := {| App.page := []; App.requests := [] |}.

(** * Properties *)

(** ** Floats *)

Lemma literals_are_binary64 :
  forallb is_binary64
    [f0_8; f0_9; f1_0; f1_1; f1_2; f1_3; f1_4; f1_45; f1_49; f1_5; f2_0;
     f8_0; f9_0] = true.
Proof. vm_compute. reflexivity. Qed.

Lemma eqb_not_ltb (x y : float) : eqb x y = true -> ltb x y = false.
Proof.
  unfold eqb, ltb, SFeqb, SFltb.
  destruct (SFcompare x y) as [[ | | ] | ]; congruence.
Qed.

Lemma eqb_geb (x y : float) : eqb x y = true -> geb x y = true.
Proof.
  unfold eqb, geb, SFeqb.
  destruct (SFcompare x y) as [[ | | ] | ]; congruence.
Qed.

(** Swapping the sides of a comparison swaps "less" and "greater". *)
Lemma SFcompare_swap (x y : float) :
  SFcompare y x = option_map CompOpp (SFcompare x y).
Proof.
  destruct x as [ [ | ] | [ | ] | | [ | ] mx ex ], y as [ [ | ] | [ | ] | | [ | ] my ey ];
    simpl; try reflexivity;
    rewrite (Z.compare_antisym ex ey); destruct (ex ?= ey)%Z; simpl;
    rewrite ?Pos.compare_cont_antisym; reflexivity.
Qed.

(** [x >= y] is [y <= x]. *)
Lemma geb_leb (x y : float) : geb x y = SFleb y x.
Proof.
  unfold geb, SFleb. rewrite (SFcompare_swap x y).
  destruct (SFcompare x y) as [[ | | ] | ]; reflexivity.
Qed.

(** A float below zero is below every positive finite float. *)
Lemma negative_below_positive (x : float) (m : positive) (e : Z) :
  ltb x zero = true -> ltb x (lit m e) = true.
Proof.
  unfold ltb, SFltb, zero, lit.
  destruct x as [ [ | ] | [ | ] | | [ | ] mx ex ]; simpl; congruence.
Qed.

(** A float that is not above zero is below every positive finite float. *)
Lemma nonpositive_below_positive (x : float) (m : positive) (e : Z) :
  SFleb x zero = true -> ltb x (lit m e) = true.
Proof.
  unfold ltb, SFltb, SFleb, zero, lit.
  destruct x as [ [ | ] | [ | ] | | [ | ] mx ex ]; simpl; congruence.
Qed.

(** ** Python slices *)

Section Slices.

Context {A : Type}.
Implicit Types (l : list A) (k j : nat).

Lemma slice_last_length k l : k <= length l -> length (slice_last k l) = k.
Proof. intros Hk. unfold slice_last. rewrite length_skipn. lia. Qed.

Lemma slice_last_short k l : length l <= k -> slice_last k l = l.
Proof.
  intros Hk. unfold slice_last.
  replace (length l - k) with 0 by lia. reflexivity.
Qed.

Lemma slice_last_nested j k l :
  j <= k -> slice_last j (slice_last k l) = slice_last j l.
Proof.
  intros Hjk. unfold slice_last.
  rewrite length_skipn, skipn_skipn. f_equal. lia.
Qed.

Lemma slice_last_app k (older recent : list A) :
  length recent = k -> slice_last k (older ++ recent) = recent.
Proof.
  intros Hk. unfold slice_last.
  rewrite length_app, skipn_app.
  replace (length older + length recent - k) with (length older) by lia.
  rewrite skipn_all, Nat.sub_diag. reflexivity.
Qed.

(** Reading a slice backward is reading the list backward, for [k] steps. *)
Lemma reversed_slice_last k l :
  reversed (slice_last k l) = firstn k (rev l).
Proof. unfold reversed, slice_last. symmetry. apply firstn_rev. Qed.

Lemma In_slice_last k l x : In x (slice_last k l) -> In x l.
Proof.
  unfold slice_last. intros Hin.
  rewrite <- (firstn_skipn (length l - k) l). apply in_or_app. now right.
Qed.

Lemma nth_reversed_slice_last k l i d :
  i < k -> nth i (reversed (slice_last k l)) d = nth i (rev l) d.
Proof.
  intros Hi. rewrite reversed_slice_last, nth_firstn.
  apply Nat.ltb_lt in Hi. now rewrite Hi.
Qed.

End Slices.

(** ** The streak loop *)

Section TakeWhile.

Context {A : Type} (p : A -> bool).

Lemma take_while_length_le (l : list A) :
  length (take_while p l) <= length l.
Proof.
  induction l as [ | x rest IH]; simpl; [lia | ].
  destruct (p x); simpl; lia.
Qed.

Lemma take_while_holds (l : list A) (i : nat) (d : A) :
  i < length (take_while p l) -> p (nth i l d) = true.
Proof.
  revert i. induction l as [ | x rest IH]; simpl; intros i Hi; [lia | ].
  destruct (p x) eqn:Hx; simpl in Hi; [ | lia].
  destruct i as [ | i]; [exact Hx | ]. apply IH. lia.
Qed.

Lemma take_while_stops (l : list A) (d : A) :
  length (take_while p l) < length l ->
  p (nth (length (take_while p l)) l d) = false.
Proof.
  induction l as [ | x rest IH]; simpl; intros Hlt; [lia | ].
  destruct (p x) eqn:Hx; simpl in *; [ | exact Hx].
  apply IH. lia.
Qed.

Lemma take_while_all (l : list A) :
  length (take_while p l) = length l <-> forallb p l = true.
Proof.
  induction l as [ | x rest IH]; simpl; [tauto | ].
  destruct (p x); simpl.
  - rewrite <- IH. split; intros H; [now injection H | now f_equal].
  - split; discriminate.
Qed.

(** The run is cut at the first failing position. *)
Lemma take_while_cut (l : list A) (i : nat) (d : A) :
  i < length l -> p (nth i l d) = false -> length (take_while p l) <= i.
Proof.
  revert i. induction l as [ | x rest IH]; simpl; intros i Hi Hf; [lia | ].
  destruct i as [ | i].
  - rewrite Hf. simpl. lia.
  - destruct (p x); simpl; [ | lia].
    apply le_n_S, IH; [lia | exact Hf].
Qed.

(** The run only depends on what [p] says of each element. *)
Lemma take_while_observed (l1 l2 : list A) :
  map p l1 = map p l2 ->
  length (take_while p l1) = length (take_while p l2).
Proof.
  revert l2. induction l1 as [ | x rest IH]; intros [ | y l2]; simpl;
    try discriminate; [reflexivity | ].
  intros Heq. injection Heq as Hxy Hrest. rewrite Hxy.
  destruct (p y); simpl; [f_equal; now apply IH | reflexivity].
Qed.

End TakeWhile.

Lemma low_streak_loop_from (remaining : list float) (count : nat) :
  low_streak_loop remaining count = count + low_streak_loop remaining 0.
Proof.
  revert count. induction remaining as [ | m rest IH]; simpl; intros count; [lia | ].
  destruct (ltb m LOW_MULTIPLIER_THRESHOLD); [ | lia].
  rewrite (IH (count + 1)), (IH 1). lia.
Qed.

Lemma low_streak_loop_run (remaining : list float) :
  low_streak_loop remaining 0 = length (take_while below_low remaining).
Proof.
  induction remaining as [ | m rest IH]; simpl; [reflexivity | ].
  unfold below_low at 1.
  destruct (ltb m LOW_MULTIPLIER_THRESHOLD); simpl; [ | reflexivity].
  rewrite low_streak_loop_from, IH. reflexivity.
Qed.

Lemma low_streak_count_run (history : list float) :
  low_streak_count history
  = length (take_while below_low (firstn REQUIRED_LOW_STREAK (rev history))).
Proof.
  unfold low_streak_count.
  now rewrite low_streak_loop_run, reversed_slice_last.
Qed.

Lemma low_streak_count_le (history : list float) :
  low_streak_count history <= REQUIRED_LOW_STREAK.
Proof.
  rewrite low_streak_count_run.
  etransitivity; [apply take_while_length_le | apply firstn_le_length].
Qed.

Lemma is_low_streak_ready_iff (history : list float) :
  is_low_streak_ready history = true
  <-> low_streak_count history = REQUIRED_LOW_STREAK.
Proof.
  unfold is_low_streak_ready. rewrite Nat.leb_le.
  pose proof (low_streak_count_le history). lia.
Qed.

(** With seven rounds at hand, the streak is ready exactly when each of the
    last seven is below the low threshold. *)
Lemma low_streak_full_iff (history : list float) :
  REQUIRED_LOW_STREAK <= length history ->
  low_streak_count history = REQUIRED_LOW_STREAK
  <-> forall m, In m (slice_last REQUIRED_LOW_STREAK history) -> below_low m = true.
Proof.
  intros Hlen.
  assert (Hw : length (reversed (slice_last REQUIRED_LOW_STREAK history))
               = REQUIRED_LOW_STREAK).
  { unfold reversed. rewrite length_rev. now apply slice_last_length. }
  unfold low_streak_count. rewrite low_streak_loop_run.
  rewrite <- Hw at 2. rewrite take_while_all, forallb_forall.
  unfold reversed. split; intros H m Hin; apply H.
  - now apply in_rev in Hin.
  - now apply in_rev.
Qed.

Lemma high_hit_recently_iff (history : list float) :
  high_hit_recently history = true
  <-> exists m, In m (slice_last SAFE_HIGH_STREAK history)
                /\ at_or_above_high m = true.
Proof. unfold high_hit_recently, any. apply existsb_exists. Qed.

Lemma high_hit_recently_false_iff (history : list float) :
  high_hit_recently history = false
  <-> forall m, In m (slice_last SAFE_HIGH_STREAK history)
                -> at_or_above_high m = false.
Proof.
  rewrite <- not_true_iff_false, high_hit_recently_iff. split.
  - intros Hno m Hin. apply not_true_iff_false. intros Hm. apply Hno. eauto.
  - intros Hall (m & Hin & Hm). rewrite (Hall m Hin) in Hm. discriminate.
Qed.

(** The evaluator once the length test has passed. *)
Lemma generate_enough (history : list float) :
  SAFE_HIGH_STREAK <= length history ->
  generate_risk_averse_signal history
  = if is_low_streak_ready history && negb (high_hit_recently history)
    then (signal_message (low_streak_count history), true)
    else (no_signal_message
            (reasons (low_streak_count history) (is_low_streak_ready history)
                     (high_hit_recently history)), false).
Proof.
  intros Hlen. unfold generate_risk_averse_signal.
  apply Nat.ltb_ge in Hlen. now rewrite Hlen.
Qed.

Lemma isSignal_enough (history : list float) :
  SAFE_HIGH_STREAK <= length history ->
  isSignal history
  = is_low_streak_ready history && negb (high_hit_recently history).
Proof.
  intros Hlen. unfold isSignal. rewrite (generate_enough _ Hlen).
  now destruct (is_low_streak_ready history && negb (high_hit_recently history)).
Qed.

Lemma recent_rounds_length (history : list float) :
  REQUIRED_LOW_STREAK <= length history ->
  length (firstn REQUIRED_LOW_STREAK (rev history)) = REQUIRED_LOW_STREAK.
Proof.
  intros Hlen. rewrite length_firstn, length_rev. lia.
Qed.

Lemma enough_for_streak (history : list float) :
  SAFE_HIGH_STREAK <= length history -> REQUIRED_LOW_STREAK <= length history.
Proof. unfold SAFE_HIGH_STREAK, REQUIRED_LOW_STREAK. lia. Qed.

(** ** The evaluator *)

(** C1: on a history of at least 20 rounds, the low-streak count is the
    number of consecutive rounds strictly below 1.50, counted backward from
    the most recent round of the last-7 window and stopped at the first round
    that is not below 1.50; it lies in 0..7; and when the last seven rounds
    are 1.1, 1.2, 1.3, 1.4, 1.45, 1.49, 2.0 the count is 0, it is the count
    the message reports, and no signal is given. *)
Theorem low_streak_count_is_trailing_run (history : list float) :
  SAFE_HIGH_STREAK <= length history ->
  let window := slice_last REQUIRED_LOW_STREAK history in
  let n := low_streak_count history in
  n = trailing_low_run window
  /\ 0 <= n <= 7
  /\ (forall i, i < n -> ltb (nth i (rev history) nan) LOW_MULTIPLIER_THRESHOLD = true)
  /\ (n < 7 -> ltb (nth n (rev history) nan) LOW_MULTIPLIER_THRESHOLD = false)
  /\ (window = broken_tail ->
      n = 0
      /\ isSignal history = false
      /\ message history
         = no_signal_message
             (low_streak_reason 0
              :: if high_hit_recently history then [high_variance_reason] else [])).
Proof.
  intros Hlen window n. subst window n.
  pose proof (enough_for_streak _ Hlen) as Hlen7.
  pose proof (low_streak_count_le history) as Hle.
  pose proof (recent_rounds_length _ Hlen7) as Hrecent.
  split; [ | split; [ | split; [ | split]]].
  - unfold low_streak_count, trailing_low_run, reversed.
    apply low_streak_loop_run.
  - unfold REQUIRED_LOW_STREAK in Hle. lia.
  - intros i Hi.
    assert (Hi7 : i < REQUIRED_LOW_STREAK) by lia.
    rewrite low_streak_count_run in Hi.
    generalize (take_while_holds below_low _ i nan Hi).
    rewrite nth_firstn. apply Nat.ltb_lt in Hi7. now rewrite Hi7.
  - intros Hn.
    rewrite low_streak_count_run in *.
    set (run := length (take_while below_low (firstn REQUIRED_LOW_STREAK (rev history)))) in *.
    assert (Hstop : run < length (firstn REQUIRED_LOW_STREAK (rev history)))
      by (rewrite Hrecent; exact Hn).
    generalize (take_while_stops below_low _ nan Hstop).
    fold run. rewrite nth_firstn.
    assert (Hn' : (run <? REQUIRED_LOW_STREAK) = true) by now apply Nat.ltb_lt.
    now rewrite Hn'.
  - intros Hw.
    assert (Hzero : low_streak_count history = 0)
      by (unfold low_streak_count; rewrite Hw; reflexivity).
    assert (Hready : is_low_streak_ready history = false)
      by (unfold is_low_streak_ready; rewrite Hzero; reflexivity).
    split; [exact Hzero | split].
    + rewrite (isSignal_enough _ Hlen), Hready. reflexivity.
    + unfold message. rewrite (generate_enough _ Hlen), Hready, Hzero.
      reflexivity.
Qed.

Lemma low_streak_count_is_trailing_run_witness :
  SAFE_HIGH_STREAK <= length history_broken
  /\ low_streak_count history_broken = 0
  /\ isSignal history_broken = false
  /\ message history_broken = no_signal_message [low_streak_reason 0].
Proof.
  assert (Hlen : SAFE_HIGH_STREAK <= length history_broken) by (vm_compute; lia).
  split; [exact Hlen | ].
  destruct (low_streak_count_is_trailing_run history_broken Hlen)
    as (_ & _ & _ & _ & Hbroken).
  apply Hbroken. reflexivity.
Defined.

(** C2: on a history of at least 20 rounds, a signal is given exactly when
    the low-streak count reaches 7 and no round of the last 20 is at or above
    8.00; a single round of the last 20 at or above 8.00, a round at exactly
    8.00 included, denies the signal whatever the streak. *)
Theorem isSignal_iff_streak_and_no_high (history : list float) :
  SAFE_HIGH_STREAK <= length history ->
  (isSignal history = true
   <-> low_streak_count history = 7
       /\ forall m, In m (slice_last 20 history)
                    -> geb m HIGH_MULTIPLIER_THRESHOLD = false)
  /\ (isSignal history
      = is_low_streak_ready history && negb (high_hit_recently history))
  /\ (forall m, In m (slice_last 20 history) ->
                geb m HIGH_MULTIPLIER_THRESHOLD = true ->
                isSignal history = false)
  /\ (In f8_0 (slice_last 20 history) -> isSignal history = false).
Proof.
  intros Hlen.
  assert (Hveto : forall m, In m (slice_last 20 history) ->
                            geb m HIGH_MULTIPLIER_THRESHOLD = true ->
                            isSignal history = false).
  { intros m Hin Hm. rewrite (isSignal_enough _ Hlen).
    assert (Hhigh : high_hit_recently history = true)
      by (apply high_hit_recently_iff; exists m; split; assumption).
    rewrite Hhigh. apply andb_false_r. }
  split; [ | split; [ | split]].
  - rewrite (isSignal_enough _ Hlen), andb_true_iff, negb_true_iff.
    rewrite is_low_streak_ready_iff, high_hit_recently_false_iff.
    reflexivity.
  - exact (isSignal_enough _ Hlen).
  - exact Hveto.
  - intros Hin. apply (Hveto f8_0 Hin). reflexivity.
Qed.

Lemma isSignal_iff_streak_and_no_high_witness :
  SAFE_HIGH_STREAK <= length scenario_exact_high
  /\ low_streak_count scenario_exact_high = 7
  /\ isSignal scenario_exact_high = false.
Proof.
  assert (Hlen : SAFE_HIGH_STREAK <= length scenario_exact_high) by (vm_compute; lia).
  split; [exact Hlen | ]. split; [reflexivity | ].
  destruct (isSignal_iff_streak_and_no_high scenario_exact_high Hlen)
    as (_ & _ & _ & Hexact).
  apply Hexact. simpl. left. reflexivity.
Defined.

(** C3: on a history of fewer than 20 rounds the evaluator returns no signal
    with the message that names the 20-round minimum, whatever the rounds
    are: neither the streak scan nor the high check has a say. *)
Theorem insufficient_history (history : list float) :
  length history < SAFE_HIGH_STREAK ->
  generate_risk_averse_signal history
  = ("🛑 ERROR: Need at least 20 rounds of history for safe analysis.", false)
  /\ forall other : list float,
       length other < SAFE_HIGH_STREAK ->
       generate_risk_averse_signal other = generate_risk_averse_signal history.
Proof.
  assert (Hshort : forall h, length h < SAFE_HIGH_STREAK ->
            generate_risk_averse_signal h = (insufficient_message, false)).
  { intros h Hh. unfold generate_risk_averse_signal.
    apply Nat.ltb_lt in Hh. now rewrite Hh. }
  intros Hlen. split.
  - now rewrite (Hshort _ Hlen).
  - intros other Hother. now rewrite (Hshort _ Hother), (Hshort _ Hlen).
Qed.

Lemma insufficient_history_witness :
  length (repeat f9_0 19) < SAFE_HIGH_STREAK
  /\ generate_risk_averse_signal (repeat f9_0 19)
     = ("🛑 ERROR: Need at least 20 rounds of history for safe analysis.", false).
Proof.
  assert (Hlen : length (repeat f9_0 19) < SAFE_HIGH_STREAK) by (vm_compute; lia).
  split; [exact Hlen | ].
  exact (proj1 (insufficient_history (repeat f9_0 19) Hlen)).
Defined.

(** C4: a history of exactly 20 rounds whose last seven are each strictly
    below 1.50 and none of which is at or above 8.00 gives a signal, reported
    with a streak of 7; so does the documented scenario of thirteen rounds at
    2 followed by 1.4, 1.3, 1.2, 1.1, 1.0, 0.9, 0.8. *)
Theorem signal_on_exactly_twenty :
  (forall history : list float,
     length history = 20 ->
     (forall m, In m (slice_last 7 history) -> ltb m LOW_MULTIPLIER_THRESHOLD = true) ->
     (forall m, In m history -> geb m HIGH_MULTIPLIER_THRESHOLD = false) ->
     isSignal history = true
     /\ low_streak_count history = 7
     /\ message history = signal_message 7)
  /\ length scenario_ok = 20
  /\ low_streak_count scenario_ok = 7
  /\ generate_risk_averse_signal scenario_ok = (signal_message 7, true).
Proof.
  split; [ | repeat split; reflexivity].
  intros history Hlen Hlow Hnone.
  assert (Hlen20 : SAFE_HIGH_STREAK <= length history)
    by (rewrite Hlen; apply le_n).
  assert (Hcount : low_streak_count history = 7).
  { apply low_streak_full_iff; [now apply enough_for_streak | exact Hlow]. }
  assert (Hready : is_low_streak_ready history = true)
    by now apply is_low_streak_ready_iff.
  assert (Hhigh : high_hit_recently history = false).
  { apply high_hit_recently_false_iff. intros m Hin.
    apply Hnone. now apply In_slice_last in Hin. }
  split; [ | split].
  - rewrite (isSignal_enough _ Hlen20), Hready, Hhigh. reflexivity.
  - exact Hcount.
  - unfold message. rewrite (generate_enough _ Hlen20), Hready, Hhigh, Hcount.
    reflexivity.
Qed.

Lemma signal_on_exactly_twenty_witness :
  length (repeat f1_0 20) = 20
  /\ isSignal (repeat f1_0 20) = true
  /\ low_streak_count (repeat f1_0 20) = 7
  /\ message (repeat f1_0 20) = signal_message 7.
Proof.
  split; [reflexivity | ].
  apply (proj1 signal_on_exactly_twenty (repeat f1_0 20)).
  - reflexivity.
  - intros m Hin. apply In_slice_last, repeat_spec in Hin. subst m. reflexivity.
  - intros m Hin. apply repeat_spec in Hin. subst m. reflexivity.
Defined.

(** C5: the two thresholds are treated differently.  On a history of at
    least 20 rounds, a round equal to 1.50 among the last seven does not
    count toward the streak: the count stops before it.  A round equal to
    8.00 among the last 20 is a high hit, and denies the signal. *)
Theorem threshold_boundaries (history : list float) :
  SAFE_HIGH_STREAK <= length history ->
  (forall i, i < 7 ->
     eqb (nth i (rev history) nan) LOW_MULTIPLIER_THRESHOLD = true ->
     low_streak_count history <= i)
  /\ (forall m, In m (slice_last 20 history) ->
        eqb m HIGH_MULTIPLIER_THRESHOLD = true ->
        high_hit_recently history = true /\ isSignal history = false)
  /\ ltb f1_5 LOW_MULTIPLIER_THRESHOLD = false
  /\ geb f8_0 HIGH_MULTIPLIER_THRESHOLD = true.
Proof.
  intros Hlen.
  pose proof (recent_rounds_length _ (enough_for_streak _ Hlen)) as Hrecent.
  split; [ | split; [ | split; reflexivity]].
  - intros i Hi Heq. rewrite low_streak_count_run.
    apply (take_while_cut below_low _ i nan).
    + rewrite Hrecent. exact Hi.
    + rewrite nth_firstn.
      assert (Hi' : (i <? REQUIRED_LOW_STREAK) = true) by now apply Nat.ltb_lt.
      rewrite Hi'. now apply eqb_not_ltb.
  - intros m Hin Heq.
    assert (Hhigh : high_hit_recently history = true).
    { apply high_hit_recently_iff. exists m. split; [exact Hin | ].
      now apply eqb_geb. }
    split; [exact Hhigh | ].
    rewrite (isSignal_enough _ Hlen), Hhigh. apply andb_false_r.
Qed.

Lemma threshold_boundaries_witness :
  SAFE_HIGH_STREAK <= length history_boundary_low
  /\ low_streak_count history_boundary_low <= 0.
Proof.
  assert (Hlen : SAFE_HIGH_STREAK <= length history_boundary_low)
    by (vm_compute; lia).
  split; [exact Hlen | ].
  apply (proj1 (threshold_boundaries history_boundary_low Hlen) 0).
  - lia.
  - reflexivity.
Defined.

(** C6: on a history of at least 20 rounds that gives no signal, at least
    one of the two conditions failed, and the message lists exactly the
    failed ones: the low-streak reason, carrying the count reached and the
    threshold 1.5, when the streak is not ready; the high-variance reason,
    carrying the threshold 8.0, when a high hit is recent; both, separated by
    a space, when both failed. *)
Theorem no_signal_message_lists_failures (history : list float) :
  SAFE_HIGH_STREAK <= length history ->
  isSignal history = false ->
  let n := low_streak_count history in
  (n < 7 \/ high_hit_recently history = true)
  /\ (n < 7 -> high_hit_recently history = false ->
      message history = no_signal_message [low_streak_reason n])
  /\ (n = 7 -> high_hit_recently history = true ->
      message history = no_signal_message [high_variance_reason])
  /\ (n < 7 -> high_hit_recently history = true ->
      message history
      = no_signal_message [low_streak_reason n; high_variance_reason])
  /\ low_streak_reason n
     = ("🔴 **Low Streak NOT Ready** (only " ++ format_int n ++ " below 1.5x).")%string
  /\ high_variance_reason
     = "🔴 **High Variance Detected** (a 8.0x+ hit occurred recently)."
  /\ forall reason : list string,
       no_signal_message reason
       = ("❌ **NO SIGNAL.** **DO NOT BET.**" ++ nl ++ nl
          ++ "**Reason(s) to Wait:**" ++ nl ++ "* " ++ join " " reason ++ nl
          ++ "**Action:** Wait for safety conditions to align.")%string.
Proof.
  intros Hlen Hno n. subst n.
  pose proof (low_streak_count_le history) as Hle.
  unfold REQUIRED_LOW_STREAK in Hle.
  assert (Hready : forall b, is_low_streak_ready history = b ->
            if b then low_streak_count history = 7
            else low_streak_count history < 7).
  { intros [ | ] Hb.
    - now apply is_low_streak_ready_iff.
    - unfold is_low_streak_ready, REQUIRED_LOW_STREAK in Hb.
      apply Nat.leb_gt in Hb. exact Hb. }
  assert (Hmsg : message history
                 = no_signal_message
                     (reasons (low_streak_count history)
                        (is_low_streak_ready history) (high_hit_recently history))).
  { rewrite (isSignal_enough _ Hlen) in Hno.
    unfold message. rewrite (generate_enough _ Hlen), Hno. reflexivity. }
  rewrite (isSignal_enough _ Hlen) in Hno.
  destruct (is_low_streak_ready history) eqn:Hr;
    destruct (high_hit_recently history) eqn:Hh;
    try discriminate Hno;
    specialize (Hready _ eq_refl); simpl in Hready;
    (split; [ | split; [ | split; [ | split; [ | split; [ | split]]]]]);
    try reflexivity; try (intros; exact Hmsg); try (intros; lia);
    try discriminate; try (left; exact Hready); try (now right).
Qed.

Lemma no_signal_message_lists_failures_witness :
  SAFE_HIGH_STREAK <= length scenario_exact_high
  /\ isSignal scenario_exact_high = false
  /\ message scenario_exact_high = no_signal_message [high_variance_reason].
Proof.
  assert (Hlen : SAFE_HIGH_STREAK <= length scenario_exact_high)
    by (vm_compute; lia).
  assert (Hno : isSignal scenario_exact_high = false) by reflexivity.
  split; [exact Hlen | split; [exact Hno | ]].
  destruct (no_signal_message_lists_failures scenario_exact_high Hlen Hno)
    as (_ & _ & Hhigh & _).
  apply Hhigh; reflexivity.
Defined.

(** ** What the evaluator reads *)

Lemma slice_last_map {A B : Type} (f : A -> B) (k : nat) (l : list A) :
  slice_last k (map f l) = map f (slice_last k l).
Proof. unfold slice_last. now rewrite length_map, skipn_map. Qed.

Lemma any_observed {A : Type} (p : A -> bool) (l1 l2 : list A) :
  map p l1 = map p l2 -> any p l1 = any p l2.
Proof.
  unfold any. revert l2.
  induction l1 as [ | x rest IH]; intros [ | y l2]; simpl;
    try discriminate; [reflexivity | ].
  intros Heq. injection Heq as Hxy Hrest. rewrite Hxy. f_equal. now apply IH.
Qed.

Lemma map_observe_low (l1 l2 : list float) :
  map observe l1 = map observe l2 -> map below_low l1 = map below_low l2.
Proof.
  intros Heq. apply (f_equal (map fst)) in Heq.
  rewrite !map_map in Heq. exact Heq.
Qed.

Lemma map_observe_high (l1 l2 : list float) :
  map observe l1 = map observe l2 ->
  map at_or_above_high l1 = map at_or_above_high l2.
Proof.
  intros Heq. apply (f_equal (map snd)) in Heq.
  rewrite !map_map in Heq. exact Heq.
Qed.

(** Two histories of at least 20 rounds whose last 20 rounds compare alike
    with the two thresholds get the same streak count. *)
Lemma low_streak_count_observed (h1 h2 : list float) :
  map observe (slice_last SAFE_HIGH_STREAK h1)
  = map observe (slice_last SAFE_HIGH_STREAK h2) ->
  low_streak_count h1 = low_streak_count h2.
Proof.
  intros Hobs. apply map_observe_low in Hobs.
  assert (H7 : REQUIRED_LOW_STREAK <= SAFE_HIGH_STREAK)
    by (unfold REQUIRED_LOW_STREAK, SAFE_HIGH_STREAK; lia).
  unfold low_streak_count. rewrite !low_streak_loop_run.
  apply take_while_observed. unfold reversed. rewrite !map_rev. f_equal.
  rewrite <- (slice_last_nested _ _ h1 H7), <- (slice_last_nested _ _ h2 H7).
  rewrite <- (slice_last_map below_low _ (slice_last SAFE_HIGH_STREAK h1)).
  rewrite <- (slice_last_map below_low _ (slice_last SAFE_HIGH_STREAK h2)).
  now rewrite Hobs.
Qed.

Lemma generate_observed (h1 h2 : list float) :
  SAFE_HIGH_STREAK <= length h1 ->
  SAFE_HIGH_STREAK <= length h2 ->
  map observe (slice_last SAFE_HIGH_STREAK h1)
  = map observe (slice_last SAFE_HIGH_STREAK h2) ->
  generate_risk_averse_signal h1 = generate_risk_averse_signal h2.
Proof.
  intros Hlen1 Hlen2 Hobs.
  rewrite (generate_enough _ Hlen1), (generate_enough _ Hlen2).
  unfold is_low_streak_ready.
  rewrite (low_streak_count_observed _ _ Hobs).
  assert (Hhigh : high_hit_recently h1 = high_hit_recently h2)
    by (apply any_observed; now apply map_observe_high).
  rewrite Hhigh. reflexivity.
Qed.



(** C9: on a history of at least 20 rounds the evaluator gives what it gives
    on the last 20 rounds alone: older rounds change neither the message nor
    the flag. *)
Theorem evaluate_trailing_window (history : list float) :
  SAFE_HIGH_STREAK <= length history ->
  generate_risk_averse_signal history
  = generate_risk_averse_signal (slice_last 20 history).
Proof.
  intros Hlen.
  pose proof (slice_last_length SAFE_HIGH_STREAK history Hlen) as Hlast.
  apply generate_observed.
  - exact Hlen.
  - fold SAFE_HIGH_STREAK. rewrite Hlast. apply le_n.
  - fold SAFE_HIGH_STREAK. now rewrite slice_last_nested.
Qed.

Lemma evaluate_trailing_window_witness :
  SAFE_HIGH_STREAK <= length history_old_high
  /\ slice_last 20 history_old_high = scenario_ok
  /\ generate_risk_averse_signal history_old_high
     = generate_risk_averse_signal scenario_ok.
Proof.
  assert (Hlen : SAFE_HIGH_STREAK <= length history_old_high)
    by (vm_compute; lia).
  split; [exact Hlen | split; [reflexivity | ]].
  exact (evaluate_trailing_window history_old_high Hlen).
Defined.

(** ** Values outside the data model *)

Lemma nonpositive_not_above_positive (x : float) (m : positive) (e : Z) :
  SFleb x zero = true -> geb x (lit m e) = false.
Proof.
  unfold geb, SFleb, zero, lit.
  destruct x as [ [ | ] | [ | ] | | [ | ] mx ex ]; simpl; congruence.
Qed.

Lemma nonpositive_not_high (m : float) :
  SFleb m zero = true -> at_or_above_high m = false.
Proof. apply nonpositive_not_above_positive. Qed.

Lemma negative_nonpositive (m : float) :
  ltb m zero = true -> SFleb m zero = true.
Proof.
  unfold ltb, SFltb, SFleb.
  destruct (SFcompare m zero) as [[ | | ] | ]; congruence.
Qed.

(** C10: the evaluator returns a message and a flag on every list of floats,
    in one of its three forms, and checks no sign: a zero or negative round is
    below 1.50 and counts toward the streak like any other, so that a history
    whose last seven rounds are negative has a streak of 7, and one whose
    last 20 rounds are all zero or negative gives a signal. *)
Theorem evaluate_total (history : list float) :
  (exists (msg : string) (flag : bool),
     generate_risk_averse_signal history = (msg, flag)
     /\ ((msg = insufficient_message /\ flag = false)
         \/ (msg = signal_message 7 /\ flag = true)
         \/ (exists reason, msg = no_signal_message reason /\ flag = false)))
  /\ (forall m, SFleb m zero = true -> ltb m LOW_MULTIPLIER_THRESHOLD = true)
  /\ (SAFE_HIGH_STREAK <= length history ->
      (forall m, In m (slice_last 7 history) -> ltb m zero = true) ->
      low_streak_count history = 7)
  /\ (SAFE_HIGH_STREAK <= length history ->
      (forall m, In m (slice_last 20 history) -> SFleb m zero = true) ->
      generate_risk_averse_signal history = (signal_message 7, true)).
Proof.
  assert (Hlow : forall m, SFleb m zero = true -> below_low m = true)
    by (intros m; apply nonpositive_below_positive).
  split; [ | split; [exact Hlow | split]].
  - destruct (Nat.lt_ge_cases (length history) SAFE_HIGH_STREAK) as [Hlt | Hge].
    + exists insufficient_message, false.
      split; [ | left; split; reflexivity].
      unfold generate_risk_averse_signal.
      apply Nat.ltb_lt in Hlt. now rewrite Hlt.
    + rewrite (generate_enough _ Hge).
      destruct (is_low_streak_ready history) eqn:Hready;
        destruct (high_hit_recently history) eqn:Hhigh; cbn [andb negb];
        eexists; eexists; (split; [reflexivity | ]).
      2: { right; left. split; [ | reflexivity].
           apply is_low_streak_ready_iff in Hready. now rewrite Hready. }
      all: right; right; eexists; split; reflexivity.
  - intros Hlen Hneg.
    apply low_streak_full_iff; [now apply enough_for_streak | ].
    intros m Hin. now apply Hlow, negative_nonpositive, Hneg.
  - intros Hlen Hnonpos.
    assert (Hcount : low_streak_count history = 7).
    { apply low_streak_full_iff; [now apply enough_for_streak | ].
      intros m Hin. apply Hlow, Hnonpos.
      rewrite <- (slice_last_nested REQUIRED_LOW_STREAK 20 history) in Hin
        by (unfold REQUIRED_LOW_STREAK; lia).
      now apply In_slice_last in Hin. }
    assert (Hready : is_low_streak_ready history = true)
      by now apply is_low_streak_ready_iff.
    assert (Hhigh : high_hit_recently history = false).
    { apply high_hit_recently_false_iff. intros m Hin.
      now apply nonpositive_not_high, Hnonpos. }
    rewrite (generate_enough _ Hlen), Hready, Hhigh, Hcount. reflexivity.
Qed.

Lemma evaluate_total_witness :
  SAFE_HIGH_STREAK <= length history_negative
  /\ generate_risk_averse_signal history_negative = (signal_message 7, true).
Proof.
  assert (Hlen : SAFE_HIGH_STREAK <= length history_negative)
    by (vm_compute; lia).
  split; [exact Hlen | ].
  destruct (evaluate_total history_negative) as (_ & _ & _ & Hall).
  apply Hall; [exact Hlen | ].
  intros m Hin. vm_compute in Hin.
  repeat (destruct Hin as [<- | Hin]; [reflexivity | ]).
  destruct Hin.
Defined.

(** ** The commentary client *)

Import Commentary.



(** * Further properties of the evaluator *)

Lemma take_while_firstn {A : Type} (p : A -> bool) (k : nat) (l : list A) :
  length (take_while p (firstn k l)) = Nat.min k (length (take_while p l)).
Proof.
  revert k. induction l as [ | x rest IH]; intros [ | k]; simpl; try reflexivity.
  destruct (p x); simpl; [f_equal; apply IH | reflexivity].
Qed.

Lemma low_streak_count_min (history : list float) :
  low_streak_count history
  = Nat.min REQUIRED_LOW_STREAK (length (take_while below_low (rev history))).
Proof. rewrite low_streak_count_run. apply take_while_firstn. Qed.

Lemma low_streak_count_snoc (history : list float) (m : float) :
  low_streak_count (history ++ [m])
  = if below_low m
    then Nat.min REQUIRED_LOW_STREAK (low_streak_count history + 1)
    else 0.
Proof.
  rewrite !low_streak_count_min, rev_app_distr.
  change (rev [m] ++ rev history) with (m :: rev history).
  cbn [take_while]. destruct (below_low m); cbn [length]; [ | reflexivity].
  lia.
Qed.

(** A round is in the last [k] rounds when fewer than [k] rounds follow it. *)
Lemma In_slice_last_recent {A : Type} (k : nat) (older later : list A) (x : A) :
  length later < k -> In x (slice_last k (older ++ x :: later)).
Proof.
  intros Hk. unfold slice_last. rewrite length_app, skipn_app. simpl length.
  apply in_or_app. right.
  replace (length older + S (length later) - k - length older) with 0 by lia.
  simpl. now left.
Qed.

Lemma isSignal_short (history : list float) :
  length history < SAFE_HIGH_STREAK -> isSignal history = false.
Proof.
  intros Hlen. unfold isSignal, generate_risk_averse_signal.
  apply Nat.ltb_lt in Hlen. now rewrite Hlen.
Qed.

Lemma isSignal_needs_length (history : list float) :
  isSignal history = true -> SAFE_HIGH_STREAK <= length history.
Proof.
  intros Hsig.
  destruct (Nat.lt_ge_cases (length history) SAFE_HIGH_STREAK) as [Hlt | Hge];
    [ | exact Hge].
  rewrite (isSignal_short _ Hlt) in Hsig. discriminate.
Qed.

(** The decision, read on the rounds themselves. *)
Lemma isSignal_true_iff (history : list float) :
  isSignal history = true
  <-> SAFE_HIGH_STREAK <= length history
      /\ (forall m, In m (slice_last REQUIRED_LOW_STREAK history) -> below_low m = true)
      /\ (forall m, In m (slice_last SAFE_HIGH_STREAK history) -> at_or_above_high m = false).
Proof.
  split.
  - intros Hsig. pose proof (isSignal_needs_length _ Hsig) as Hlen.
    rewrite (isSignal_enough _ Hlen), andb_true_iff, negb_true_iff in Hsig.
    destruct Hsig as [Hready Hhigh].
    split; [exact Hlen | split].
    + apply low_streak_full_iff; [now apply enough_for_streak | ].
      now apply is_low_streak_ready_iff.
    + now apply high_hit_recently_false_iff.
  - intros (Hlen & Hlow & Hnone).
    rewrite (isSignal_enough _ Hlen), andb_true_iff, negb_true_iff.
    split.
    + apply is_low_streak_ready_iff, low_streak_full_iff;
        [now apply enough_for_streak | exact Hlow].
    + now apply high_hit_recently_false_iff.
Qed.

Lemma high_round_blocks (older later : list float) (m : float) :
  at_or_above_high m = true ->
  length later < SAFE_HIGH_STREAK ->
  isSignal (older ++ m :: later) = false.
Proof.
  intros Hm Hlater. apply not_true_iff_false. intros Hsig.
  apply isSignal_true_iff in Hsig as (_ & _ & Hnone).
  rewrite (Hnone m) in Hm; [discriminate | ].
  now apply In_slice_last_recent.
Qed.

Lemma not_low_round_blocks (older later : list float) (m : float) :
  below_low m = false ->
  length later < REQUIRED_LOW_STREAK ->
  isSignal (older ++ m :: later) = false.
Proof.
  intros Hm Hlater. apply not_true_iff_false. intros Hsig.
  apply isSignal_true_iff in Hsig as (_ & Hlow & _).
  rewrite (Hlow m) in Hm; [discriminate | ].
  now apply In_slice_last_recent.
Qed.

(** A float below a positive finite float is below, and not at or above,
    any positive finite float with a larger exponent. *)
Lemma below_low_not_high (m : float) :
  below_low m = true -> at_or_above_high m = false.
Proof.
  unfold below_low, at_or_above_high, ltb, geb, SFltb.
  unfold LOW_MULTIPLIER_THRESHOLD, HIGH_MULTIPLIER_THRESHOLD, f1_5, f8_0, lit.
  generalize 6755399441055744%positive, 4503599627370496%positive.
  intros plow phigh.
  destruct m as [ [ | ] | [ | ] | | [ | ] mx ex ]; simpl;
    try reflexivity; try discriminate.
  destruct (Z.compare_spec ex (-52)) as [Heq | Hlt | Hgt]; intros Hlow;
    try discriminate.
  - subst ex. reflexivity.
  - assert (Hcmp : (ex ?= -49)%Z = Lt) by (apply Z.compare_lt_iff; lia).
    now rewrite Hcmp.
Qed.

Lemma In_skipn_list {A : Type} (n : nat) (l : list A) (x : A) :
  In x (skipn n l) -> In x l.
Proof.
  intros Hin. rewrite <- (firstn_skipn n l). apply in_or_app. now right.
Qed.

Lemma In_skipn_less {A : Type} (n1 n2 : nat) (l : list A) (x : A) :
  n1 <= n2 -> In x (skipn n2 l) -> In x (skipn n1 l).
Proof.
  intros Hle Hin.
  replace n2 with ((n2 - n1) + n1) in Hin by lia.
  rewrite <- skipn_skipn in Hin. now apply In_skipn_list in Hin.
Qed.

(** The last [k] rounds after one more round: that round, or one of the
    last [k] before it. *)
Lemma In_slice_last_snoc {A : Type} (k : nat) (l : list A) (last x : A) :
  In x (slice_last k (l ++ [last])) -> x = last \/ In x (slice_last k l).
Proof.
  unfold slice_last. rewrite length_app, skipn_app. simpl length.
  intros Hin. apply in_app_or in Hin as [Hin | Hin].
  - right. apply (In_skipn_less (length l - k)) in Hin; [exact Hin | lia].
  - left. apply In_skipn_list in Hin. simpl in Hin.
    destruct Hin as [Heq | []]. now symmetry.
Qed.

(** The three forms of the result. *)
Lemma generate_forms (history : list float) :
  generate_risk_averse_signal history = (insufficient_message, false)
  \/ generate_risk_averse_signal history = (signal_message 7, true)
  \/ exists reason,
       generate_risk_averse_signal history = (no_signal_message reason, false).
Proof.
  destruct (Nat.lt_ge_cases (length history) SAFE_HIGH_STREAK) as [Hlt | Hge].
  - left. unfold generate_risk_averse_signal.
    apply Nat.ltb_lt in Hlt. now rewrite Hlt.
  - right. rewrite (generate_enough _ Hge).
    destruct (is_low_streak_ready history && negb (high_hit_recently history))
      eqn:Hboth.
    + left. apply andb_true_iff in Hboth as [Hready _].
      apply is_low_streak_ready_iff in Hready. now rewrite Hready.
    + right. eexists. reflexivity.
Qed.

(** The three messages differ from their first bytes on. *)
Lemma messages_apart (count : nat) (reason : list string) :
  insufficient_message <> signal_message count
  /\ insufficient_message <> no_signal_message reason
  /\ signal_message count <> no_signal_message reason.
Proof.
  split; [ | split]; intros Heq.
  - apply (f_equal (String.get 2)) in Heq. vm_compute in Heq. discriminate.
  - apply (f_equal (String.get 0)) in Heq. vm_compute in Heq. discriminate.
  - apply (f_equal (String.get 0)) in Heq. vm_compute in Heq. discriminate.
Qed.

(** X1: for a history of any length, the count taken over the last-7 window
    is the length of the whole history's trailing run of rounds below 1.50,
    capped at 7. *)
Theorem low_streak_count_is_capped_run (history : list float) :
  low_streak_count history = Nat.min 7 (trailing_low_run history).
Proof. unfold trailing_low_run. apply low_streak_count_min. Qed.

(** X2: one more round updates the count without looking back: a round
    below 1.50 adds one to the count, up to 7, and any other round sets it
    to 0. *)
Theorem low_streak_count_after_round (history : list float) (m : float) :
  low_streak_count (history ++ [m])
  = if ltb m LOW_MULTIPLIER_THRESHOLD
    then Nat.min 7 (low_streak_count history + 1)
    else 0.
Proof. apply low_streak_count_snoc. Qed.

(** X3: a round at or above 8.00 denies the signal as long as fewer than 20
    rounds have followed it, whatever the other rounds are. *)
Theorem high_round_denies_next_rounds (older later : list float) (m : float) :
  geb m HIGH_MULTIPLIER_THRESHOLD = true ->
  length later < 20 ->
  isSignal (older ++ m :: later) = false.
Proof. apply high_round_blocks. Qed.

Lemma high_round_denies_next_rounds_witness :
  geb f8_0 HIGH_MULTIPLIER_THRESHOLD = true
  /\ length (repeat f1_0 19) < 20
  /\ isSignal (repeat f1_0 20 ++ f8_0 :: repeat f1_0 19) = false.
Proof.
  split; [reflexivity | ]. split; [vm_compute; lia | ].
  apply (high_round_denies_next_rounds (repeat f1_0 20) (repeat f1_0 19) f8_0).
  - reflexivity.
  - vm_compute; lia.
Defined.

(** X4: a round that is not below 1.50 denies the signal as long as fewer
    than 7 rounds have followed it, whatever the other rounds are. *)
Theorem not_low_round_denies_next_rounds (older later : list float) (m : float) :
  ltb m LOW_MULTIPLIER_THRESHOLD = false ->
  length later < 7 ->
  isSignal (older ++ m :: later) = false.
Proof. apply not_low_round_blocks. Qed.

Lemma not_low_round_denies_next_rounds_witness :
  ltb f1_5 LOW_MULTIPLIER_THRESHOLD = false
  /\ length (repeat f1_0 6) < 7
  /\ isSignal (repeat f1_0 20 ++ f1_5 :: repeat f1_0 6) = false.
Proof.
  split; [reflexivity | ]. split; [vm_compute; lia | ].
  apply (not_low_round_denies_next_rounds (repeat f1_0 20) (repeat f1_0 6) f1_5).
  - reflexivity.
  - vm_compute; lia.
Defined.

(** X5: for a history of any length, a signal is given exactly when the
    history has at least 20 rounds, each of its last 7 rounds is below 1.50,
    and none of its last 20 rounds is at or above 8.00. *)
Theorem signal_rule_on_rounds (history : list float) :
  isSignal history = true
  <-> 20 <= length history
      /\ (forall m, In m (slice_last 7 history) ->
                    ltb m LOW_MULTIPLIER_THRESHOLD = true)
      /\ (forall m, In m (slice_last 20 history) ->
                    geb m HIGH_MULTIPLIER_THRESHOLD = false).
Proof. apply isSignal_true_iff. Qed.

(** X6: once a signal is given, the next round keeps it exactly when that
    round is again below 1.50. *)
Theorem signal_kept_iff_next_round_low (history : list float) (m : float) :
  isSignal history = true ->
  isSignal (history ++ [m]) = ltb m LOW_MULTIPLIER_THRESHOLD.
Proof.
  intros Hsig. fold (below_low m).
  destruct (below_low m) eqn:Hm.
  - apply isSignal_true_iff in Hsig as (Hlen & Hlow & Hnone).
    apply isSignal_true_iff. split; [ | split].
    + rewrite length_app. simpl. lia.
    + intros x Hin. apply In_slice_last_snoc in Hin as [-> | Hin];
        [exact Hm | now apply Hlow].
    + intros x Hin. apply In_slice_last_snoc in Hin as [-> | Hin];
        [now apply below_low_not_high | now apply Hnone].
  - apply (not_low_round_blocks history [] m Hm).
    unfold REQUIRED_LOW_STREAK. simpl. lia.
Qed.

Lemma signal_kept_iff_next_round_low_witness :
  isSignal scenario_ok = true
  /\ isSignal (scenario_ok ++ [f2_0]) = false
  /\ isSignal (scenario_ok ++ [f0_9]) = true.
Proof.
  assert (Hsig : isSignal scenario_ok = true) by reflexivity.
  split; [exact Hsig | split].
  - exact (signal_kept_iff_next_round_low scenario_ok f2_0 Hsig).
  - exact (signal_kept_iff_next_round_low scenario_ok f0_9 Hsig).
Defined.

(** X7: the message alone tells the flag: two histories that get the same
    message get the same flag, the three kinds of message being distinct
    texts. *)
Theorem message_determines_flag (h1 h2 : list float) :
  message h1 = message h2 -> isSignal h1 = isSignal h2.
Proof.
  unfold message, isSignal.
  destruct (generate_forms h1) as [-> | [-> | [r1 ->]]];
    destruct (generate_forms h2) as [-> | [-> | [r2 ->]]];
    simpl; intros Heq; try reflexivity; exfalso.
  - now apply (proj1 (messages_apart 7 [])).
  - now apply (proj1 (messages_apart 7 [])); symmetry.
  - now apply (proj2 (proj2 (messages_apart 7 r2))).
  - now apply (proj2 (proj2 (messages_apart 7 r1))); symmetry.
Qed.

Lemma message_determines_flag_witness :
  message scenario_ok = message (repeat f1_0 20)
  /\ isSignal scenario_ok = isSignal (repeat f1_0 20).
Proof.
  assert (Hmsg : message scenario_ok = message (repeat f1_0 20)) by reflexivity.
  split; [exact Hmsg | ].
  exact (message_determines_flag scenario_ok (repeat f1_0 20) Hmsg).
Defined.

(** X8: the values [float] reads from [nan] and [inf] are rounds like any
    other: a NaN round denies the signal as long as fewer than 7 rounds have
    followed it, an infinite round as long as fewer than 20 rounds have. *)
Theorem non_finite_rounds (older later : list float) :
  (length later < 7 -> isSignal (older ++ nan :: later) = false)
  /\ (length later < 20 ->
      isSignal (older ++ S754_infinity false :: later) = false).
Proof.
  split; intros Hlater.
  - now apply not_low_round_blocks.
  - now apply high_round_blocks.
Qed.

Lemma non_finite_rounds_witness :
  isSignal (scenario_ok ++ nan :: repeat f1_0 6) = false
  /\ isSignal (scenario_ok ++ S754_infinity false :: repeat f1_0 19) = false.
Proof.
  split.
  - apply (proj1 (non_finite_rounds scenario_ok (repeat f1_0 6))).
    vm_compute; lia.
  - apply (proj2 (non_finite_rounds scenario_ok (repeat f1_0 19))).
    vm_compute; lia.
Defined.

(** * The text field *)

Import Text.

Section SplitScan.

Variable sep : char -> bool.

Let word (x : text) : Prop := forallb (fun c => negb (sep c)) x = true.

Lemma word_rev (x : text) : word x -> word (rev x).
Proof.
  unfold word. rewrite !forallb_forall. intros Hx c Hin.
  apply Hx. now apply in_rev.
Qed.

Lemma rev_not_nil (c : char) (x : text) : rev (c :: x) <> [].
Proof.
  simpl. intros Heq. apply (f_equal (@length char)) in Heq.
  rewrite length_app in Heq. simpl in Heq. lia.
Qed.

(** Every token is a non-empty run of characters that are not separators. *)
Lemma split_scan_words (s token : text) :
  word token ->
  Forall (fun x => x <> [] /\ word x) (split_scan sep s token).
Proof.
  revert token. induction s as [ | c rest IH]; intros token Htoken; simpl.
  - destruct token as [ | c0 token0]; constructor; [ | constructor].
    split; [apply rev_not_nil | now apply word_rev].
  - destruct (sep c) eqn:Hc.
    + destruct token as [ | c0 token0]; [now apply IH | ].
      constructor; [ | now apply IH].
      split; [apply rev_not_nil | now apply word_rev].
    + apply IH. unfold word. simpl. now rewrite Hc, Htoken.
Qed.

(** A separator ends the token being read and starts afresh. *)
Lemma split_scan_at_sep (s1 s2 token : text) (d : char) :
  sep d = true ->
  split_scan sep (s1 ++ d :: s2) token
  = split_scan sep s1 token ++ split_scan sep s2 [].
Proof.
  intros Hd. revert token.
  induction s1 as [ | c rest IH]; intros token; simpl.
  - rewrite Hd. now destruct token.
  - destruct (sep c); [ | apply IH].
    destruct token; simpl; now rewrite IH.
Qed.

(** Leading separators are dropped. *)
Lemma split_scan_leading (ds s : text) :
  forallb sep ds = true ->
  split_scan sep (ds ++ s) [] = split_scan sep s [].
Proof.
  induction ds as [ | d rest IH]; simpl; [reflexivity | ].
  intros Hds. apply andb_true_iff in Hds as [Hd Hrest].
  rewrite Hd. now apply IH.
Qed.

(** A word is read whole. *)
Lemma split_scan_word (x token : text) :
  word x -> split_scan sep x token = split_scan sep [] (rev x ++ token).
Proof.
  revert token. induction x as [ | c rest IH]; intros token Hx;
    [reflexivity | ].
  unfold word in Hx. simpl in Hx. apply andb_true_iff in Hx as [Hc Hrest].
  apply negb_true_iff in Hc.
  cbn [split_scan]. rewrite Hc, (IH _ Hrest). simpl rev.
  now rewrite <- app_assoc.
Qed.

Lemma split_scan_one (x : text) :
  x <> [] -> word x -> split_scan sep x [] = [x].
Proof.
  intros Hne Hx. rewrite (split_scan_word _ _ Hx), app_nil_r.
  destruct (rev x) as [ | c r] eqn:Hrev.
  - apply (f_equal (@rev char)) in Hrev. rewrite rev_involutive in Hrev.
    contradiction.
  - cbn [split_scan]. rewrite <- Hrev, rev_involutive. reflexivity.
Qed.

(** Words joined by a non-empty run of separators are read back. *)
Lemma split_scan_join (ds : text) (xs : list text) :
  ds <> [] -> forallb sep ds = true ->
  Forall (fun x => x <> [] /\ word x) xs ->
  split_scan sep (join_text ds xs) [] = xs.
Proof.
  intros Hne Hds Hxs.
  destruct ds as [ | d ds']; [contradiction | ].
  simpl in Hds. apply andb_true_iff in Hds as [Hd Hds'].
  induction Hxs as [ | x rest [Hx1 Hx2] Hrest IH]; [reflexivity | ].
  destruct rest as [ | y rest'].
  - simpl. now apply split_scan_one.
  - change (join_text (d :: ds') (x :: y :: rest'))
      with (x ++ d :: (ds' ++ join_text (d :: ds') (y :: rest'))).
    rewrite (split_scan_at_sep _ _ _ _ Hd), (split_scan_leading _ _ Hds'), IH.
    now rewrite (split_scan_one _ Hx1 Hx2).
Qed.

End SplitScan.

(** Splitting on whitespace after the commas are made spaces is splitting on
    whitespace and commas. *)
Lemma split_scan_replace_commas (s token : text) :
  split_scan isspace (replace_commas s) token
  = split_scan is_delimiter s token.
Proof.
  revert token. induction s as [ | c rest IH]; intros token; [reflexivity | ].
  simpl. unfold is_delimiter at 1.
  destruct (c =? comma)%N eqn:Hc.
  - rewrite orb_true_r. change (isspace space) with true. cbv iota.
    destruct token; now rewrite IH.
  - rewrite orb_false_r. destruct (isspace c); [ | apply IH].
    destruct token; now rewrite IH.
Qed.

Lemma tokens_scan (s : text) : tokens s = split_scan is_delimiter s [].
Proof. apply split_scan_replace_commas. Qed.

Lemma delimiter_free_no_space (x : text) :
  delimiter_free x = true -> forallb (fun c => negb (isspace c)) x = true.
Proof.
  unfold delimiter_free. rewrite !forallb_forall. intros Hx c Hin.
  specialize (Hx c Hin). unfold is_delimiter in Hx.
  apply negb_true_iff, orb_false_iff in Hx as [Hspace _].
  now rewrite Hspace.
Qed.

Lemma lstrip_word (x : text) :
  forallb (fun c => negb (isspace c)) x = true -> lstrip x = x.
Proof.
  destruct x as [ | c rest]; [reflexivity | ].
  simpl. intros Hx. apply andb_true_iff in Hx as [Hc _].
  apply negb_true_iff in Hc. now rewrite Hc.
Qed.

Lemma strip_word (x : text) :
  forallb (fun c => negb (isspace c)) x = true -> strip x = x.
Proof.
  intros Hx. unfold strip. rewrite (lstrip_word _ Hx), lstrip_word.
  - apply rev_involutive.
  - rewrite forallb_forall in *. intros c Hin. apply Hx. now apply in_rev.
Qed.

Lemma tokens_words (s : text) :
  Forall (fun x => x <> [] /\ delimiter_free x = true) (tokens s).
Proof. rewrite tokens_scan. now apply split_scan_words. Qed.

(** * The button handler *)

Import App.

Section HandlerProperties.

Variable float_of : text -> option float.
Variable format_history : list float -> string.
Variable client : option Client.

Let parse := parse_history float_of.
Let handler := on_check float_of format_history client.

(** On tokens that need no stripping, the comprehension is [float] on each
    token. *)
Lemma floats_of_words (xs : list text) :
  Forall (fun x => x <> [] /\ delimiter_free x = true) xs ->
  floats_of_tokens float_of xs = all_floats float_of xs.
Proof.
  induction 1 as [ | x rest [Hne Hfree] Hrest IH]; [reflexivity | ].
  simpl. rewrite (strip_word _ (delimiter_free_no_space _ Hfree)), IH.
  destruct x as [ | c x']; [contradiction | ].
  destruct (float_of (c :: x')); [ | reflexivity].
  now destruct (all_floats float_of rest).
Qed.

Lemma parse_all_floats (s : text) : parse s = all_floats float_of (tokens s).
Proof. apply floats_of_words, tokens_words. Qed.

Lemma all_floats_app (xs ys : list text) (h1 h2 : list float) :
  all_floats float_of xs = Some h1 ->
  all_floats float_of ys = Some h2 ->
  all_floats float_of (xs ++ ys) = Some (h1 ++ h2).
Proof.
  revert h1. induction xs as [ | x rest IH]; simpl; intros h1 H1 H2.
  - injection H1 as <-. exact H2.
  - destruct (float_of x) as [value | ]; [ | discriminate].
    destruct (all_floats float_of rest) as [values | ]; [ | discriminate].
    injection H1 as <-. now rewrite (IH values eq_refl H2).
Qed.

Lemma all_floats_invalid (xs : list text) (x : text) :
  In x xs -> float_of x = None -> all_floats float_of xs = None.
Proof.
  induction xs as [ | y rest IH]; simpl; [contradiction | ].
  intros [-> | Hin] Hx.
  - now rewrite Hx.
  - rewrite (IH Hin Hx). now destruct (float_of y).
Qed.

Lemma all_floats_length (xs : list text) (h : list float) :
  all_floats float_of xs = Some h -> length h = length xs.
Proof.
  revert h. induction xs as [ | x rest IH]; simpl; intros h Hh.
  - now injection Hh as <-.
  - destruct (float_of x); [ | discriminate].
    destruct (all_floats float_of rest) as [values | ]; [ | discriminate].
    injection Hh as <-. simpl. now rewrite (IH values).
Qed.

Lemma grown_eq (w : world) (added visible : list element)
    (sent all_sent : list request) :
  visible = page w ++ added ->
  all_sent = requests w ++ sent ->
  {| page := visible; requests := all_sent |} = grown w added sent.
Proof. intros -> ->. reflexivity. Qed.

Lemma handler_empty (w : world) :
  handler [] w = (Returned tt, grown w [st_warning paste_warning] []).
Proof.
  unfold handler, on_check, render. f_equal.
  apply grown_eq; [ | rewrite app_nil_r]; reflexivity.
Qed.

Lemma handler_invalid (s : text) (w : world) :
  parse s = None ->
  handler s w = (Returned tt, grown w [st_error invalid_numbers_error] []).
Proof.
  intros Hparse. unfold handler, on_check. fold parse.
  destruct s as [ | c rest]; [discriminate Hparse | ].
  rewrite Hparse. unfold render. f_equal.
  apply grown_eq; [ | rewrite app_nil_r]; reflexivity.
Qed.

Lemma handler_few (s : text) (h : list float) (w : world) :
  s <> [] -> parse s = Some h -> length h < SAFE_HIGH_STREAK ->
  handler s w
  = (Returned tt,
     grown w [st_error insufficient_message; st_info need_more_rounds_info] []).
Proof.
  intros Hne Hparse Hlen. unfold handler, on_check. fold parse.
  destruct s as [ | c rest]; [contradiction | ].
  rewrite Hparse.
  assert (Hgen : generate_risk_averse_signal h = (insufficient_message, false)).
  { unfold generate_risk_averse_signal.
    apply Nat.ltb_lt in Hlen. now rewrite Hlen. }
  rewrite Hgen.
  assert (Htest : (SAFE_HIGH_STREAK <=? length h) = false)
    by (apply Nat.leb_gt; exact Hlen).
  rewrite Htest. unfold seq_then, and_then, render. simpl. f_equal.
  apply grown_eq; [rewrite <- app_assoc | rewrite app_nil_r]; reflexivity.
Qed.

(** The text [get_ai_analysis] gives for a history and its verdict. *)
Lemma handler_enough (s : text) (h : list float) (w : world) :
  parse s = Some h -> SAFE_HIGH_STREAK <= length h ->
  exists text : string,
    handler s w
    = (Returned tt,
       grown w
         [verdict_element h; st_spinner spinner_text;
          st_info (assessment_info text)]
         match client with
         | None => []
         | Some _ => [analysis_request format_history h]
         end)
    /\ match client with
       | None => text = unavailable_message
       | Some c =>
           match generate_content c (analysis_request format_history h) with
           | Returned answer => text = answer
           | Raised e => text = api_error_message e
           end
       end.
Proof.
  intros Hparse Hlen. unfold handler, on_check. fold parse.
  destruct s as [ | c0 rest].
  { unfold parse, parse_history in Hparse. simpl in Hparse.
    injection Hparse as <-. simpl in Hlen. unfold SAFE_HIGH_STREAK in Hlen. lia. }
  rewrite Hparse.
  assert (Htest : (SAFE_HIGH_STREAK <=? length h) = true)
    by (apply Nat.leb_le; exact Hlen).
  rewrite Htest.
  unfold verdict_element, analysis_request, message, isSignal.
  destruct (generate_risk_averse_signal h) as [signal_text is_bet_signal].
  cbn [fst snd].
  unfold seq_then, and_then, render, call, get_ai_analysis.
  destruct client as [c | ].
  - unfold try_except, bind, send, ret. cbn [page requests].
    destruct (generate_content c _) as [answer | e] eqn:Hcall;
      [exists answer | exists (api_error_message e)];
      (split; [ | reflexivity]); cbn [page requests]; f_equal;
      (apply grown_eq; [rewrite <- !app_assoc | ]; reflexivity).
  - exists unavailable_message. split; [ | reflexivity].
    unfold ret. cbn [page requests]. f_equal.
    apply grown_eq; [rewrite <- !app_assoc | rewrite app_nil_r]; reflexivity.
Qed.

End HandlerProperties.

Lemma signal_message_on_signal (h : list float) :
  isSignal h = true -> message h = signal_message 7.
Proof.
  unfold isSignal, message.
  destruct (generate_forms h) as [-> | [-> | [reason ->]]]; simpl;
    try discriminate; reflexivity.
Qed.

Lemma tokens_blank (s : text) : forallb is_delimiter s = true -> tokens s = [].
Proof.
  intros Hs. rewrite tokens_scan, <- (app_nil_r s).
  now rewrite split_scan_leading.
Qed.

(** Every run of the handler ends normally; a green element is a signal on
    at least 20 parsed values, and a request goes out for at least 20 parsed
    values and a client at hand only. *)
Lemma handler_cases (float_of : text -> option float)
    (format_history : list float -> string) (client : option Client)
    (s : text) (w : world) :
  exists (added : list element) (sent : list request),
    on_check float_of format_history client s w = (Returned tt, grown w added sent)
    /\ (forall body, In (st_success body) added ->
          exists h, parse_history float_of s = Some h
                    /\ SAFE_HIGH_STREAK <= length h
                    /\ isSignal h = true
                    /\ body = signal_message 7)
    /\ (sent = []
        \/ exists h c, parse_history float_of s = Some h
                       /\ SAFE_HIGH_STREAK <= length h
                       /\ client = Some c
                       /\ sent = [analysis_request format_history h]).
Proof.
  destruct s as [ | c0 rest].
  { eexists; eexists. split; [apply handler_empty | split; [ | now left]].
    intros body [Hin | []]. discriminate. }
  destruct (parse_history float_of (c0 :: rest)) as [h | ] eqn:Hparse.
  2: { eexists; eexists.
       split; [now apply handler_invalid | split; [ | now left]].
       intros body [Hin | []]. discriminate. }
  destruct (Nat.lt_ge_cases (length h) SAFE_HIGH_STREAK) as [Hlt | Hge].
  { eexists; eexists.
    split; [now apply (handler_few _ _ _ _ h) | split; [ | now left]].
    intros body [Hin | [Hin | []]]; discriminate. }
  destruct (handler_enough float_of format_history client _ h w Hparse Hge)
    as (text & Hrun & _).
  eexists; eexists. split; [exact Hrun | split].
  - intros body [Hin | [Hin | [Hin | []]]]; try discriminate.
    unfold verdict_element in Hin.
    destruct (isSignal h) eqn:Hsig; [ | discriminate].
    injection Hin as <-. exists h.
    repeat split; try assumption. now apply signal_message_on_signal.
  - destruct client as [c | ]; [right | now left].
    exists h, c. repeat split; assumption.
Qed.

(** X9: a comma or a whitespace character cuts the text in two: the tokens
    are those of the part before followed by those of the part after, and
    when both parts are read as numbers the whole is read as the first
    history followed by the second. *)
Theorem delimiter_concatenates_histories (s1 s2 : text) (d : char) :
  is_delimiter d = true ->
  tokens (s1 ++ d :: s2) = tokens s1 ++ tokens s2
  /\ forall (float_of : text -> option float) (h1 h2 : list float),
       parse_history float_of s1 = Some h1 ->
       parse_history float_of s2 = Some h2 ->
       parse_history float_of (s1 ++ d :: s2) = Some (h1 ++ h2).
Proof.
  intros Hd.
  assert (Htokens : tokens (s1 ++ d :: s2) = tokens s1 ++ tokens s2)
    by (rewrite !tokens_scan; now apply split_scan_at_sep).
  split; [exact Htokens | ].
  intros float_of h1 h2. rewrite !parse_all_floats, Htokens.
  apply all_floats_app.
Qed.

Lemma delimiter_concatenates_histories_witness :
  is_delimiter comma = true
  /\ parse_history float_of_demo (text_two_values ++ comma :: text_two_values)
     = Some ([f1_0; f1_0] ++ [f1_0; f1_0]).
Proof.
  split; [reflexivity | ].
  apply (proj2 (delimiter_concatenates_histories
                  text_two_values text_two_values comma eq_refl));
    reflexivity.
Defined.

(** X10: the tokens of the text field are never empty and hold neither
    whitespace nor a comma, so the [strip()] calls and the filter of the
    comprehension change nothing: the history is [float] of each token, in
    order, all or nothing. *)
Theorem comprehension_is_float_of_each_token
    (float_of : text -> option float) (s : text) :
  parse_history float_of s = all_floats float_of (tokens s)
  /\ Forall (fun x => x <> [] /\ delimiter_free x = true /\ strip x = x)
            (tokens s).
Proof.
  split; [apply parse_all_floats | ].
  eapply Forall_impl; [ | apply tokens_words].
  intros x [Hne Hfree]. repeat split; try assumption.
  now apply strip_word, delimiter_free_no_space.
Qed.

(** X11: tokens written out with a comma and a space between them are read
    back as they were, provided none is empty or holds a delimiter. *)
Theorem tokens_round_trip (xs : list text) :
  Forall (fun x => x <> [] /\ delimiter_free x = true) xs ->
  tokens (join_text [comma; space] xs) = xs.
Proof.
  intros Hxs. rewrite tokens_scan.
  apply split_scan_join; [discriminate | reflexivity | exact Hxs].
Qed.

Lemma tokens_round_trip_witness :
  tokens (join_text [comma; space] [[49; 46; 48]; [57; 46; 48]]%N)
  = [[49; 46; 48]; [57; 46; 48]]%N.
Proof.
  apply tokens_round_trip.
  repeat constructor; discriminate.
Defined.

(** X12: one token that [float] rejects is enough for the whole submission
    to be refused: the page gets the invalid-numbers error alone, no verdict
    is shown and no request is sent, whatever the other tokens are. *)
Theorem invalid_token_rejects_submission
    (float_of : text -> option float) (format_history : list float -> string)
    (client : option Client) (s x : text) (w : world) :
  In x (tokens s) -> float_of x = None ->
  on_check float_of format_history client s w
  = (Returned tt,
     {| page := page w ++ [st_error invalid_numbers_error];
        requests := requests w |}).
Proof.
  intros Hin Hx.
  rewrite handler_invalid.
  - unfold grown. now rewrite app_nil_r.
  - rewrite parse_all_floats. now apply (all_floats_invalid _ _ x).
Qed.

Lemma invalid_token_rejects_submission_witness :
  on_check float_of_demo (fun _ => "[...]") (Some failing_client)
    text_bad_value empty_world
  = (Returned tt,
     {| page := [st_error invalid_numbers_error]; requests := [] |}).
Proof.
  apply (invalid_token_rejects_submission float_of_demo (fun _ => "[...]")
           (Some failing_client) text_bad_value [97; 98; 99]%N empty_world).
  - vm_compute. right. left. reflexivity.
  - reflexivity.
Defined.

(** X13: when the text is read as fewer than 20 numbers, the page gets the
    20-round error and the notice that the analysis needs 20 rounds, and no
    request is sent. *)
Theorem few_values_skip_analysis
    (float_of : text -> option float) (format_history : list float -> string)
    (client : option Client) (s : text) (h : list float) (w : world) :
  s <> [] ->
  parse_history float_of s = Some h ->
  length h < 20 ->
  on_check float_of format_history client s w
  = (Returned tt,
     {| page := page w ++ [st_error insufficient_message;
                           st_info "Need at least 20 rounds for full AI analysis."];
        requests := requests w |}).
Proof.
  intros Hne Hparse Hlen.
  rewrite (handler_few float_of format_history client s h w Hne Hparse Hlen).
  unfold grown. now rewrite app_nil_r.
Qed.

Lemma few_values_skip_analysis_witness :
  on_check float_of_demo (fun _ => "[...]") (Some failing_client)
    text_two_values empty_world
  = (Returned tt,
     {| page := [st_error insufficient_message;
                 st_info "Need at least 20 rounds for full AI analysis."];
        requests := [] |}).
Proof.
  apply (few_values_skip_analysis float_of_demo (fun _ => "[...]")
           (Some failing_client) text_two_values [f1_0; f1_0] empty_world).
  - discriminate.
  - reflexivity.
  - vm_compute; lia.
Defined.

(** X14: an empty text field gets the warning that asks for the history, but
    a text made of whitespace and commas only is taken for a history of no
    rounds: it gets the 20-round error and the notice of a short history. *)
Theorem blank_text_is_a_short_history
    (float_of : text -> option float) (format_history : list float -> string)
    (client : option Client) (s : text) (w : world) :
  on_check float_of format_history client [] w
  = (Returned tt,
     {| page := page w ++ [st_warning paste_warning]; requests := requests w |})
  /\ (s <> [] -> forallb is_delimiter s = true ->
      on_check float_of format_history client s w
      = (Returned tt,
         {| page := page w ++ [st_error insufficient_message;
                               st_info need_more_rounds_info];
            requests := requests w |})).
Proof.
  split.
  - reflexivity.
  - intros Hne Hblank.
    assert (Hparse : parse_history float_of s = Some []).
    { unfold parse_history. now rewrite (tokens_blank _ Hblank). }
    rewrite (handler_few float_of format_history client s [] w Hne Hparse).
    + unfold grown. now rewrite app_nil_r.
    + unfold SAFE_HIGH_STREAK. simpl. lia.
Qed.

Lemma blank_text_is_a_short_history_witness :
  on_check float_of_demo (fun _ => "[...]") None [space; comma; 9; 160]%N
    empty_world
  = (Returned tt,
     {| page := [st_error insufficient_message; st_info need_more_rounds_info];
        requests := [] |}).
Proof.
  apply (proj2 (blank_text_is_a_short_history float_of_demo (fun _ => "[...]")
                  None [space; comma; 9; 160]%N empty_world)).
  - discriminate.
  - reflexivity.
Defined.



(** X16: every run of the handler ends normally and only adds to the page;
    a green element is added only when the text was read as at least 20
    numbers for which the evaluator gives a signal, and its text is then the
    signal message with a streak of 7. *)
Theorem green_only_on_signal
    (float_of : text -> option float) (format_history : list float -> string)
    (client : option Client) (s : text) (w : world) :
  exists (added : list element) (w' : world),
    on_check float_of format_history client s w = (Returned tt, w')
    /\ page w' = page w ++ added
    /\ forall body, In (st_success body) added ->
         exists h, parse_history float_of s = Some h
                   /\ 20 <= length h
                   /\ isSignal h = true
                   /\ body = signal_message 7.
Proof.
  destruct (handler_cases float_of format_history client s w)
    as (added & sent & Hrun & Hgreen & _).
  exists added, (grown w added sent).
  split; [exact Hrun | split; [reflexivity | exact Hgreen]].
Qed.

(** X17: a run of the handler sends at most one request, and sends it only
    when the text was read as at least 20 numbers and a client is at hand;
    the request is then the one built from the parsed history and its
    verdict, and the earlier requests are kept. *)
Theorem request_only_with_enough_values
    (float_of : text -> option float) (format_history : list float -> string)
    (client : option Client) (s : text) (w : world) :
  let w' := snd (on_check float_of format_history client s w) in
  requests w' = requests w
  \/ exists h c,
       parse_history float_of s = Some h
       /\ 20 <= length h
       /\ client = Some c
       /\ requests w'
          = requests w
            ++ [ {| model := "gemini-2.5-flash";
                    contents := prompt_of format_history h (message h) |} ].
Proof.
  intros w'. subst w'.
  destruct (handler_cases float_of format_history client s w)
    as (added & sent & Hrun & _ & [-> | (h & c & Hparse & Hlen & Hclient & ->)]);
    rewrite Hrun; simpl.
  - left. apply app_nil_r.
  - right. exists h, c. repeat split; assumption.
Qed.
